(** * Upload orchestration of the uploadthing client

    A shallow embedding of
    - [packages/shared/src/effect.ts]: [fetchEff], [fetchEffJson] and the
      retry schedule [exponentialBackoff] (built from Effect's [Schedule]
      combinators, which are modelled after their Effect 2.x definitions);
    - the client module: [DANGEROUS__uploadFiles] and [uploadFile].

    Effects are modelled in a state-and-error monad over a [World] holding
    the clock (milliseconds) and the timed trace of observable events. A run
    ends with a value, a typed failure, or a defect (Effect's [die]: an
    exception thrown while the effect runs is not a typed failure).
    The network is an oracle [fetch_env]: the reply to a request on a URL is
    a function of that URL and of how many times it was requested before.
    The two transports live in modules that are not part of the sources
    ([./internal/multi-part], [./internal/presigned-post]) and are an
    oracle [transport] returning a duration and an optional error.

    [fetchEffJson] is declared [(schema, input, init)]. Both of its call
    sites in the client pass the URL first and the schema second; the model
    keeps every argument in the position the code gives it. *)

From Stdlib Require Import ZArith String List Bool Lia.
Import ListNotations.
Open Scope string_scope.
Open Scope list_scope.
Open Scope Z_scope.

(** ** JSON values *)

Set Warnings "-register-all".

Inductive json : Type :=
| JNull
| JBool (b : bool)
| JNum (z : Z)
| JStr (s : string)
| JArr (l : list json)
| JObj (fields : list (string * json)).

(** Property access on a parsed object: [JSON.parse] keeps the last
    binding of a duplicated key. [None] is JavaScript's [undefined]. *)
Definition get_prop (k : string) (fs : list (string * json)) : option json :=
  fold_left (fun acc kv => if String.eqb (fst kv) k then Some (snd kv) else acc)
            fs None.

(** ** Objects of string values (request headers)

    An object is an association list in insertion order. [set_prop k v o]
    is the assignment [o[k] = v]: an existing property keeps its place and
    takes the new value, a new one is appended. *)
Fixpoint set_prop (k v : string) (o : list (string * string)) : list (string * string) :=
  match o with
  | [] => [(k, v)]
  | (k', v') :: o' => if String.eqb k k' then (k, v) :: o' else (k', v') :: set_prop k v o'
  end.

Definition assign_props (acc o : list (string * string)) : list (string * string) :=
  fold_left (fun acc kv => set_prop (fst kv) (snd kv) acc) o acc.

(** [{...o1, ...o2}] *)
Definition spread (o1 o2 : list (string * string)) : list (string * string) :=
  assign_props (assign_props [] o1) o2.



(** ** Errors *)

Inductive UTError : Type :=
| FetchError (input : string)            (* network failure or non-JSON body *)
| ParseError                             (* Schema.decode failure *)
| RetryError                             (* "still waiting" *)
| UploadThingError (code message cause : string)
| UTReporterError (code : string)
| TransportError (detail : string).      (* whatever else the transport modules fail with *)

(** Defects. [SchemaDecodeTypeError] is the [TypeError] that
    [Schema.decode(x)] throws when [x] is a string: a string has no [ast],
    and the parser reads [_tag] of [undefined]. [Died e] is
    [Effect.die(e)]. *)
Inductive Defect : Type :=
| SchemaDecodeTypeError
| Died (e : UTError).

(** ** Data model *)

Record File := mkFile { fname : string; fsize : Z }.

Inductive ContentDisposition := Inline | Attachment.

Record PresignedBase := mkBase {
  key : string;
  fileName : string;
  fileUrl : string;
  pollingJwt : string;
  pollingUrl : string;
  contentDisposition : ContentDisposition;
  customId : option string;
  fileType : string
}.

(** [UploadThingResponse[number]]: a [PSPResponse] or an [MPUResponse]. *)
Inductive Presigned :=
| PSP (b : PresignedBase) (url : string) (fields : list (string * string))
| MPU (b : PresignedBase) (urls : list string) (uploadId : string)
      (chunkSize chunkCount : Z).

Definition base (p : Presigned) : PresignedBase :=
  match p with PSP b _ _ => b | MPU b _ _ _ _ => b end.

(** [("urls" in presigned)] on a decoded descriptor: only the [MPUResponse]
    shape carries the key (decoding drops excess properties). *)
Definition has_urls (p : Presigned) : bool :=
  match p with PSP _ _ _ => false | MPU _ _ _ _ _ => true end.

(** [UploadFilesOptions]; a callback is recorded by whether it is given. *)
Record UploadFilesOptions := mkOpts {
  onUploadProgress : bool;
  onUploadBegin : bool;
  files : list File;
  url : string;
  package : string;
  input : option json
}.

Record UploadFileResponse := mkResponse {
  name : string;
  size : Z;
  rkey : string;
  rurl : string;
  serverData : option json
}.

(** ** Observable events and the world *)

Inductive TransportKind := Multipart | PresignedPost.

Inductive Event :=
| EvFetch (target : string) (headers : list (string * string))
| EvBegin (file : string)                        (* onUploadBegin({file}) *)
| EvTransportStart (kind : TransportKind) (fkey : string)
| EvTransportEnd (kind : TransportKind) (fkey : string)
| EvConsoleError (msg : string)
| EvLogError.

Record World := mkWorld { clock : Z; trace : list (Z * Event) }.

Inductive res (A : Type) :=
| Ok (a : A)
| Err (e : UTError)
| Die (d : Defect)
| OutOfFuel.
Arguments Ok {A}. Arguments Err {A}. Arguments Die {A}. Arguments OutOfFuel {A}.

Definition M (A : Type) := World -> res A * World.

Definition ret {A} (a : A) : M A := fun w => (Ok a, w).
Definition fail {A} (e : UTError) : M A := fun w => (Err e, w).
Definition die {A} (d : Defect) : M A := fun w => (Die d, w).
Definition bind {A B} (m : M A) (k : A -> M B) : M B :=
  fun w => match m w with
           | (Ok a, w') => k a w'
           | (Err e, w') => (Err e, w')
           | (Die d, w') => (Die d, w')
           | (OutOfFuel, w') => (OutOfFuel, w')
           end.

Notation "x <- m ;; k" := (bind m (fun x => k))
  (at level 61, m at next level, right associativity).
Notation "m ;;; k" := (bind m (fun _ => k))
  (at level 61, right associativity).

Definition emit (ev : Event) : M unit :=
  fun w => (Ok tt, mkWorld (clock w) (trace w ++ [(clock w, ev)])).

(** [Effect.sleep(ms)] *)
Definition sleep (ms : Z) : M unit :=
  fun w => (Ok tt, mkWorld (clock w + Z.max 0 ms) (trace w)).

(** Sleeping until an absolute instant, as the schedule driver does. *)
Definition sleep_until (t : Z) : M unit :=
  fun w => (Ok tt, mkWorld (Z.max (clock w) t) (trace w)).

(** ** Effect's [Schedule]

    A schedule steps at instant [now] on an input, giving its next state,
    an output and a decision: stop, or continue at an instant. *)

Inductive Decision := Done | Continue (start : Z).

Record Schedule (I O : Type) := mkSchedule {
  sst : Type;
  sinit : sst;
  sstep : Z -> I -> sst -> sst * O * Decision
}.
Arguments mkSchedule {I O}.
Arguments sst {I O}.
Arguments sinit {I O}.
Arguments sstep {I O}.

Section Combinators.
Context {I : Type}.

(** [forever = unfold(0, n => n + 1)] *)
Definition forever : Schedule I nat :=
  mkSchedule nat 0%nat (fun now _ n => (S n, n, Continue now)).

Definition smap {O O'} (s : Schedule I O) (f : O -> O') : Schedule I O' :=
  mkSchedule (sst s) (sinit s)
    (fun now i st => let '(st', o, d) := sstep s now i st in (st', f o, d)).

(** [addDelay(self, f)]: moves the start of a continuing decision by [f out]. *)
Definition addDelay {O} (s : Schedule I O) (f : O -> Z) : Schedule I O :=
  mkSchedule (sst s) (sinit s)
    (fun now i st =>
       let '(st', o, d) := sstep s now i st in
       match d with
       | Done => (st', o, Done)
       | Continue start => (st', o, Continue (now + ((start - now) + f o)))
       end).

(** [exponential(base, factor) = delayedSchedule(map(forever, i => base * factor ** i))] *)
Definition exponential (base factor : Z) : Schedule I Z :=
  addDelay (smap forever (fun i => base * factor ^ Z.of_nat i)) (fun d => d).

(** [spaced(d) = addDelay(forever, () => d)] *)
Definition spaced (d : Z) : Schedule I nat := addDelay forever (fun _ => d).

(** [andThenEither(self, that)]: runs [self] until it is done, then [that]. *)
Definition andThenEither {O O'} (s : Schedule I O) (t : Schedule I O')
  : Schedule I (O + O') :=
  mkSchedule (sst s * sst t * bool)%type (sinit s, sinit t, true)
    (fun now i st =>
       let '(ls, rs, onLeft) := st in
       if onLeft then
         let '(ls', o, d) := sstep s now i ls in
         match d with
         | Done => let '(rs', o', d') := sstep t now i rs in
                   ((ls', rs', false), inr o', d')
         | Continue _ => ((ls', rs, true), inl o, d)
         end
       else
         let '(rs', o', d') := sstep t now i rs in ((ls, rs', false), inr o', d')).

(** [elapsed]: time since the first step. *)
Definition elapsed : Schedule I Z :=
  mkSchedule (option Z) None
    (fun now _ st =>
       match st with
       | None => (Some now, 0, Continue now)
       | Some s => (Some s, now - s, Continue now)
       end).

End Combinators.

(** [compose(self, that)]: [that] is fed the outputs of [self]; the later
    of the two starts wins ([Intervals.max]). *)
Definition compose {I O O'} (s : Schedule I O) (t : Schedule O O') : Schedule I O' :=
  mkSchedule (sst s * sst t)%type (sinit s, sinit t)
    (fun now i st =>
       let '(ls, rs) := st in
       let '(ls', o, d1) := sstep s now i ls in
       let '(rs', o', d2) := sstep t now o rs in
       match d1, d2 with
       | Done, _ => ((ls', rs'), o', Done)
       | _, Done => ((ls', rs'), o', Done)
       | Continue a, Continue b => ((ls', rs'), o', Continue (Z.max a b))
       end).

(** [check(self, test)]: stops as soon as [test input output] is false. *)
Definition check {I O} (s : Schedule I O) (test : I -> O -> bool) : Schedule I O :=
  mkSchedule (sst s) (sinit s)
    (fun now i st =>
       let '(st', o, d) := sstep s now i st in
       match d with
       | Done => (st', o, Done)
       | Continue _ => if test i o then (st', o, d) else (st', o, Done)
       end).

Definition whileOutput {I O} (s : Schedule I O) (p : O -> bool) : Schedule I O :=
  check s (fun _ o => p o).
Definition whileInput {I O} (s : Schedule I O) (p : I -> bool) : Schedule I O :=
  check s (fun i _ => p i).

(** Durations are in milliseconds. *)
Definition millis (n : Z) : Z := n.
Definition seconds (n : Z) : Z := 1000 * n.
Definition minutes (n : Z) : Z := 60000 * n.

(** [exponentialBackoff] of [effect.ts]:
<<
  Schedule.exponential(Duration.millis(10), 4),
  Schedule.andThenEither(Schedule.spaced(Duration.seconds(1))),
  Schedule.compose(Schedule.elapsed),
  Schedule.whileOutput(Duration.lessThanOrEqualTo(Duration.minutes(1)))
>> *)
Definition exponentialBackoff : Schedule UTError Z :=
  whileOutput
    (compose (andThenEither (exponential (millis 10) 4) (spaced (seconds 1)))
             elapsed)
    (fun e => (e <=? minutes 1)%Z).


(** ** The pipeline *)

(** A reply of the network: a failure of [fetch], or a response whose body
    is JSON ([Some]) or not ([None], then [res.json()] rejects). *)
Inductive FetchReply := NetworkError | Response (body : option json).

(** The decoded [PollingResponse] of [uploadFile]:
    [S.union(S.struct({status: S.literal("done"), callbackData: S.any}),
             S.struct({status: S.literal("still waiting")}))]. *)
Inductive PollingResponse := PDone (callbackData : option json) | PStillWaiting.

Definition PollingResponse_decode (j : json) : option PollingResponse :=
  match j with
  | JObj fs =>
      match get_prop "status" fs with
      | Some (JStr s) =>
          if String.eqb s "done" then Some (PDone (get_prop "callbackData" fs))
          else if String.eqb s "still waiting" then Some PStillWaiting
          else None
      | _ => None
      end
  | _ => None
  end.

(** [res instanceof RetryError] *)
Definition isRetryError (e : UTError) : bool :=
  match e with RetryError => true | _ => false end.

Fixpoint count_fetches (u : string) (tr : list (Z * Event)) : nat :=
  match tr with
  | [] => 0%nat
  | (_, EvFetch u' _) :: tr' =>
      if String.eqb u u' then S (count_fetches u tr') else count_fetches u tr'
  | _ :: tr' => count_fetches u tr'
  end.

(** Effect's schedule driver for [Effect.retry]: on a failure the schedule
    steps at the current instant on the error; when it is done the last
    error is the result, otherwise the driver sleeps until the start of the
    decision and runs the effect again. A defect is not retried. [fuel]
    bounds the unfolding. *)
Fixpoint retry_loop {A O} (sch : Schedule UTError O) (fuel : nat)
         (st : sst sch) (self : M A) : M A :=
  fun w =>
    match self w with
    | (Ok a, w1) => (Ok a, w1)
    | (Die d, w1) => (Die d, w1)
    | (OutOfFuel, w1) => (OutOfFuel, w1)
    | (Err e, w1) =>
        let '(st', _, d) := sstep sch (clock w1) e st in
        match d with
        | Done => (Err e, w1)
        | Continue start =>
            match fuel with
            | O => (OutOfFuel, w1)
            | S fuel' => retry_loop sch fuel' st' self (snd (sleep_until start w1))
            end
        end
    end.

Definition retry_fuel : nat := 32.

(** [Effect.retry(self, { while, schedule })] retries along
    [whileInput(schedule, while)]. *)
Definition retry {A O} (self : M A) (whilep : UTError -> bool)
           (schedule : Schedule UTError O) : M A :=
  retry_loop (whileInput schedule whilep) retry_fuel
             (sinit (whileInput schedule whilep)) self.

(** [Effect.all(effects)] without options: sequential, stops at the first
    failure or defect. *)
Fixpoint Effect_all {A} (l : list (M A)) : M (list A) :=
  match l with
  | [] => ret []
  | m :: l' => a <- m ;; rest <- Effect_all l' ;; ret (a :: rest)
  end.

(** A JavaScript value in an argument position of [fetchEffJson]: a string,
    or an Effect schema (its decoder into [R]). *)
Inductive JsArg (R : Type) :=
| JsString (s : string)
| JsSchema (decode : json -> option R).
Arguments JsString {R}. Arguments JsSchema {R}.

(** [Schema.decode(x)]: [None] when it throws, that is when [x] is a
    string. *)
Definition Schema_decode {R} (x : JsArg R) : option (json -> option R) :=
  match x with
  | JsSchema d => Some d
  | JsString _ => None
  end.

(** ** Auxiliary functions used to state the properties *)

(** The retry schedule as [Effect.retry] runs it. *)
Definition backoff : Schedule UTError Z := whileInput exponentialBackoff isRetryError.

Definition start_of (s : option Z) (now : Z) : Z :=
  match s with None => now | Some x => x end.

(** The transport [uploadFile] selects. *)
Definition kind_of (p : Presigned) : TransportKind :=
  if has_urls p then Multipart else PresignedPost.

Definition begin_evs (opts : UploadFilesOptions) (f : File) (t : Z) : list (Z * Event) :=
  if onUploadBegin opts then [(t, EvBegin (fname f))] else [].

Definition matched_file (opts : UploadFilesOptions) (p : Presigned) : option File :=
  find (fun f => String.eqb (fname f) (fileName (base p))) (files opts).

(** The decisions of a schedule stepped on a sequence of inputs (the
    instant of the step and the input it is fed), from a state. *)
Fixpoint run_schedule {I O} (s : Schedule I O) (inputs : list (Z * I)) (st : sst s)
  : list Decision :=
  match inputs with
  | [] => []
  | (now, i) :: rest =>
      let '(st', _, d) := sstep s now i st in d :: run_schedule s rest st'
  end.

(** The same for the retry schedule of [Effect.retry]. *)
Fixpoint run_backoff (inputs : list (Z * UTError)) (st : sst backoff) : list Decision :=
  match inputs with
  | [] => []
  | (now, e) :: rest =>
      let '(st', _, d) := sstep backoff now e st in d :: run_backoff rest st'
  end.

(** ** Concrete inputs used by the instances at the end of the file *)

Definition exBase (k n : string) : PresignedBase :=
  mkBase k n ("https://bucket.example/" ++ k)%string "jwt"
         ("https://api.example/poll/" ++ k)%string Inline None "image/png".
Definition exA : Presigned := PSP (exBase "kA" "a.txt") "https://bucket.example" [].
Definition exB : Presigned := PSP (exBase "kB" "b.txt") "https://bucket.example" [].
(** A multipart descriptor: it has [urls]. *)
Definition exM : Presigned := MPU (exBase "kM" "m.bin") ["https://bucket.example/part1"] "up1" 5 1.
Definition exFa : File := mkFile "a.txt" 5.
Definition exFb : File := mkFile "b.txt" 7.
Definition exFm : File := mkFile "m.bin" 9.
Definition exOpts (fs : list File) : UploadFilesOptions :=
  mkOpts false true fs "https://api.example" "my-app" None.
Definition exW0 : World := mkWorld 0 [].
Definition still_body : json := JObj [("status", JStr "still waiting")].
Definition done_body (d : json) : json := JObj [("status", JStr "done"); ("callbackData", d)].
(** Zero latency on every URL: "still waiting" to the first [k] requests,
    then [after]. *)
Definition exNet (k : nat) (after : json) (u : string) (n : nat) : N * FetchReply :=
  (0%N, Response (Some (if Nat.ltb n k then still_body else after))).
(** Zero latency, "still waiting" for ever. *)
Definition exNetWaiting (u : string) (n : nat) : N * FetchReply :=
  (0%N, Response (Some still_body)).
(** Every transport takes 100 ms; the one of the descriptor keyed [bad] fails. *)
Definition exTransport (bad : string) (k : TransportKind) (f : File) (p : Presigned)
           (endpoint : option string) (opts : UploadFilesOptions) : N * option UTError :=
  (100%N, if String.eqb (key (base p)) bad then Some (TransportError "403") else None).
Definition exApiUrl (u slug actionType : string) : string :=
  (u ++ "?slug=" ++ slug ++ "&actionType=" ++ actionType)%string.
Definition exSchemaEmpty (j : json) : option (list Presigned) := Some [].

Section Client.

(** The network and the transports. [transport kind file presigned endpoint
    opts] is the transport module called with the options object the code
    builds: [{endpoint: slug, ...opts}] for the multipart one, [{...opts}]
    for the presigned-POST one. *)
Variable fetch_env : string -> nat -> N * FetchReply.
Variable transport :
  TransportKind -> File -> Presigned -> option string -> UploadFilesOptions -> N * option UTError.
(** [createAPIRequestUrl] ([./internal/ut-reporter]) and
    [uploadThingResponseSchema] ([./internal/shared-schemas]). *)
Variable createAPIRequestUrl : string -> string -> string -> string.
Variable uploadThingResponseSchema : json -> option (list Presigned).
(** [String(schema)]: what [fetch] would be asked to request were a schema
    passed as the request input. *)
Variable String_of_schema : string.

(** The request target [fetch] derives from a request input. *)
Definition request_target {R} (input : JsArg R) : string :=
  match input with
  | JsString s => s
  | JsSchema _ => String_of_schema
  end.

(** [fetchEff(input, init)] under a [fetchContext] with [baseHeaders]: one
    request with headers [{...baseHeaders, ...init.headers}], logged when
    issued; the clock advances by the latency of the reply. *)
Definition fetchEff (baseHeaders : list (string * string)) (input : string)
           (headers : list (string * string)) : M (option json) :=
  fun w =>
    let '(lat, reply) := fetch_env input (count_fetches input (trace w)) in
    let w1 := mkWorld (clock w + Z.of_N lat)
                      (trace w ++ [(clock w, EvFetch input (spread baseHeaders headers))]) in
    match reply with
    | NetworkError => (Err (FetchError input), w1)
    | Response body => (Ok body, w1)
    end.

(** [fetchEffJson(schema, input, init)]: the pipe evaluates
    [Schema.decode(schema)] when it is built, before any request; then
    fetch, [res.json()], and the decoder. *)
Definition fetchEffJson {R} (baseHeaders : list (string * string)) (schema input : JsArg R)
           (headers : list (string * string)) : M R :=
  match Schema_decode schema with
  | None => die SchemaDecodeTypeError
  | Some decode =>
      body <- fetchEff baseHeaders (request_target input) headers ;;
      j <- (match body with
            | Some j => ret j
            | None => fail (FetchError (request_target input))
            end) ;;
      match decode j with Some r => ret r | None => fail ParseError end
  end.

(** A transport call: the abstract transport takes [dur] milliseconds. *)
Definition run_transport (kind : TransportKind) (file : File) (p : Presigned)
           (endpoint : option string) (opts : UploadFilesOptions) : M unit :=
  emit (EvTransportStart kind (key (base p))) ;;;
  fun w =>
    let '(dur, err) := transport kind file p endpoint opts in
    let t := clock w + Z.of_N dur in
    let w1 := mkWorld t (trace w ++ [(t, EvTransportEnd kind (key (base p)))]) in
    match err with None => (Ok tt, w1) | Some e => (Err e, w1) end.

(** [uploadMultipartWithProgress(file, presigned, { endpoint: slug, ...opts })] *)
Definition uploadMultipartWithProgress (file : File) (p : Presigned) (slug : string)
           (opts : UploadFilesOptions) : M unit :=
  run_transport Multipart file p (Some slug) opts.

(** [uploadPresignedPostWithProgress(file, presigned, { ...opts })] *)
Definition uploadPresignedPostWithProgress (file : File) (p : Presigned)
           (opts : UploadFilesOptions) : M unit :=
  run_transport PresignedPost file p None opts.

(** The poll stage of [uploadFile]:
<<
  fetchEffJson(presigned.pollingUrl, PollingResponse, {
    headers: { authorization: presigned.pollingJwt },
  }),
  Effect.andThen((res) =>
    res.status === "done" ? Effect.succeed(res.callbackData) : Effect.fail(new RetryError())),
  Effect.retry({ while: (res) => res instanceof RetryError, schedule: exponentialBackoff })
>> *)
Definition poll_stage (baseHeaders : list (string * string)) (p : Presigned)
  : M (option json) :=
  retry
    (res <- fetchEffJson baseHeaders (JsString (pollingUrl (base p)))
                         (JsSchema PollingResponse_decode)
                         [("authorization", pollingJwt (base p))] ;;
     match res with
     | PDone d => ret d
     | PStillWaiting => fail RetryError
     end)
    isRetryError exponentialBackoff.

Definition not_found_cause (opts : UploadFilesOptions) (p : Presigned) : string :=
  ("Expected file with name " ++ fileName (base p) ++ " but got '"
   ++ String.concat "," (map (fun _ => "[object File]") (files opts)) ++ "'")%string.

Definition ut_prefix : string := "https://utfs.io/f/".

Definition uploadFile (baseHeaders : list (string * string)) (slug : string)
           (opts : UploadFilesOptions) (presigned : Presigned) : M UploadFileResponse :=
  match find (fun f => String.eqb (fname f) (fileName (base presigned)))
             (files opts) with
  | None =>
      emit (EvConsoleError "No file found for presigned URL") ;;;
      fail (UploadThingError "NOT_FOUND" "No file found for presigned URL"
                             (not_found_cause opts presigned))
  | Some file =>
      (if onUploadBegin opts then emit (EvBegin (fname file)) else ret tt) ;;;
      (if has_urls presigned
       then uploadMultipartWithProgress file presigned slug opts
       else uploadPresignedPostWithProgress file presigned opts) ;;;
      sleep 500 ;;;
      serverData <- poll_stage baseHeaders presigned ;;
      ret {| name := fname file; size := fsize file; rkey := key (base presigned);
             serverData := serverData;
             rurl := (ut_prefix ++ key (base presigned))%string |}
  end.

(** The batch step of [uploadFiles], once the descriptors are known. *)
Definition uploadAll (baseHeaders : list (string * string)) (slug : string)
           (opts : UploadFilesOptions) (presigneds : list Presigned)
  : M (list UploadFileResponse) :=
  Effect_all (map (uploadFile baseHeaders slug opts) presigneds).

(** The [uploadFiles] generator of [DANGEROUS__uploadFiles] (the body of the
    descriptor request is not modelled). *)
Definition uploadFiles (baseHeaders : list (string * string)) (endpoint : string)
           (opts : UploadFilesOptions) : M (list UploadFileResponse) :=
  presigneds <- fetchEffJson baseHeaders
                  (JsString (createAPIRequestUrl (url opts) endpoint "upload"))
                  (JsSchema uploadThingResponseSchema)
                  [("Content-Type", "application/json")] ;;
  uploadAll baseHeaders endpoint opts presigneds.

(** [Effect.catchTag("UTReporterError", (error) => Effect.die(error))] *)
Definition catchTag_UTReporterError_die {A} (m : M A) : M A :=
  fun w =>
    match m w with
    | (Err (UTReporterError c), w1) => (Die (Died (UTReporterError c)), w1)
    | r => r
    end.

(** [Effect.tapErrorCause(Effect.logError)]: any failure or defect is
    logged. *)
Definition tapErrorCause_logError {A} (m : M A) : M A :=
  fun w =>
    match m w with
    | (Err e, w1) => (Err e, mkWorld (clock w1) (trace w1 ++ [(clock w1, EvLogError)]))
    | (Die d, w1) => (Die d, mkWorld (clock w1) (trace w1 ++ [(clock w1, EvLogError)]))
    | r => r
    end.

(** [DANGEROUS__uploadFiles]: the layer provides [baseHeaders: {}]. *)
Definition DANGEROUS__uploadFiles (endpoint : string) (opts : UploadFilesOptions)
  : M (list UploadFileResponse) :=
  tapErrorCause_logError (catchTag_UTReporterError_die (uploadFiles [] endpoint opts)).

(** The transport [uploadFile] calls for a matched file. *)
Definition transport_call (slug : string) (opts : UploadFilesOptions) (p : Presigned)
           (f : File) : N * option UTError :=
  transport (kind_of p) f p (if has_urls p then Some slug else None) opts.

(** ** Generic facts about the monad and the trace *)

Lemma count_fetches_app u tr1 tr2 :
  count_fetches u (tr1 ++ tr2) = (count_fetches u tr1 + count_fetches u tr2)%nat.
Proof.
  induction tr1 as [|[t ev] tr1 IH]; simpl; [reflexivity|].
  destruct ev; try exact IH.
  destruct (String.eqb u target); simpl; rewrite IH; reflexivity.
Qed.

Lemma count_fetches_begin_transport u opts f t k fk t' :
  count_fetches u (begin_evs opts f t ++
                   [(t, EvTransportStart k fk); (t', EvTransportEnd k fk)]) = 0%nat.
Proof. unfold begin_evs. destruct (onUploadBegin opts); reflexivity. Qed.






(** The poll stage dies at once: [Schema.decode] is given the polling URL. *)
Lemma poll_stage_dies bh p w : poll_stage bh p w = (Die SchemaDecodeTypeError, w).
Proof. reflexivity. Qed.

(** One step of the retry schedule: the exponential part never finishes,
    so [andThenEither] stays on its left schedule; the decision is to poll
    again [10 * 4 ^ n] ms later while the input is a [RetryError] and at most
    one minute elapsed since the first step. *)
Lemma backoff_step (n c : nat) (s : option Z) (now : Z) (e : UTError) :
  sstep backoff now e ((n, c, true), s) =
  (((S n, c, true), Some (start_of s now)), now - start_of s now,
   if (isRetryError e && (now - start_of s now <=? 60000))%bool
   then Continue (now + 10 * 4 ^ Z.of_nat n) else Done).
Proof.
  assert (Hp : 0 <= 10 * 4 ^ Z.of_nat n)
    by (apply Z.mul_nonneg_nonneg; [lia | apply Z.pow_nonneg; lia]).
  destruct s as [s|]; cbn -[Z.pow Z.of_nat Z.mul Z.add Z.sub Z.max Z.leb].
  all: change (minutes 1) with 60000; change (millis 10) with 10.
  all: rewrite Z.max_l by lia.
  all: replace (now + (now - now + 10 * 4 ^ Z.of_nat n))
         with (now + 10 * 4 ^ Z.of_nat n) by lia.
  - destruct (now - s <=? 60000); destruct (isRetryError e); reflexivity.
  - rewrite Z.sub_diag. destruct (isRetryError e); reflexivity.
Qed.

(** One step of [exponentialBackoff] itself: its input plays no part. *)
Lemma exponentialBackoff_step (n c : nat) (s : option Z) (now : Z) (e : UTError) :
  sstep exponentialBackoff now e ((n, c, true), s) =
  (((S n, c, true), Some (start_of s now)), now - start_of s now,
   if now - start_of s now <=? 60000
   then Continue (now + 10 * 4 ^ Z.of_nat n) else Done).
Proof.
  assert (Hp : 0 <= 10 * 4 ^ Z.of_nat n)
    by (apply Z.mul_nonneg_nonneg; [lia | apply Z.pow_nonneg; lia]).
  destruct s as [s|]; cbn -[Z.pow Z.of_nat Z.mul Z.add Z.sub Z.max Z.leb].
  all: change (minutes 1) with 60000; change (millis 10) with 10.
  all: rewrite Z.max_l by lia.
  all: replace (now + (now - now + 10 * 4 ^ Z.of_nat n))
         with (now + 10 * 4 ^ Z.of_nat n) by lia.
  - destruct (now - s <=? 60000); reflexivity.
  - rewrite Z.sub_diag. reflexivity.
Qed.

Lemma run_exponentialBackoff_started (inputs : list (Z * UTError)) : forall n c t0 i now e,
  nth_error inputs i = Some (now, e) ->
  nth_error (run_schedule exponentialBackoff inputs ((n, c, true), Some t0)) i
  = Some (if now - t0 <=? 60000 then Continue (now + 10 * 4 ^ Z.of_nat (n + i)) else Done).
Proof.
  induction inputs as [|[now' e'] rest IH]; intros n c t0 i now e H.
  - destruct i; discriminate.
  - cbn [run_schedule]. rewrite exponentialBackoff_step. cbn [start_of]. destruct i as [|i].
    + cbn in H. injection H as <- <-. cbn [nth_error]. rewrite Nat.add_0_r. reflexivity.
    + cbn in H. cbn [nth_error].
      replace (n + S i)%nat with (S n + i)%nat by lia.
      apply (IH (S n) c t0 i now e H).
Qed.

(** ** The pipeline of one descriptor *)

Lemma uploadFile_not_found bh slug opts p w :
  matched_file opts p = None ->
  uploadFile bh slug opts p w =
  (Err (UploadThingError "NOT_FOUND" "No file found for presigned URL"
                         (not_found_cause opts p)),
   mkWorld (clock w)
     (trace w ++ [(clock w, EvConsoleError "No file found for presigned URL")])).
Proof. intros H. unfold uploadFile. unfold matched_file in H. rewrite H. reflexivity. Qed.

Lemma uploadFile_transport_fail bh slug opts p w f dur e :
  matched_file opts p = Some f ->
  transport_call slug opts p f = (dur, Some e) ->
  uploadFile bh slug opts p w =
  (Err e,
   mkWorld (clock w + Z.of_N dur)
     (trace w ++ begin_evs opts f (clock w)
        ++ [(clock w, EvTransportStart (kind_of p) (key (base p)));
            (clock w + Z.of_N dur, EvTransportEnd (kind_of p) (key (base p)))])).
Proof.
  intros Hf Ht. unfold uploadFile. unfold matched_file in Hf. rewrite Hf.
  unfold transport_call, kind_of in Ht. unfold kind_of, begin_evs.
  unfold uploadMultipartWithProgress, uploadPresignedPostWithProgress, run_transport.
  unfold bind, emit, sleep, ret.
  destruct (has_urls p), (onUploadBegin opts); cbn in Ht; cbn -[poll_stage]; rewrite Ht;
    cbn -[poll_stage]; rewrite <- ?app_assoc; reflexivity.
Qed.

(** After a successful transport the pipeline sleeps 500 ms and dies at
    the poll stage, without a request. *)
Lemma uploadFile_transport_ok bh slug opts p w f dur :
  matched_file opts p = Some f ->
  transport_call slug opts p f = (dur, None) ->
  uploadFile bh slug opts p w =
  (Die SchemaDecodeTypeError,
   mkWorld (clock w + Z.of_N dur + 500)
     (trace w ++ begin_evs opts f (clock w)
        ++ [(clock w, EvTransportStart (kind_of p) (key (base p)));
            (clock w + Z.of_N dur, EvTransportEnd (kind_of p) (key (base p)))])).
Proof.
  intros Hf Ht. unfold uploadFile. unfold matched_file in Hf. rewrite Hf.
  unfold transport_call, kind_of in Ht. unfold kind_of, begin_evs.
  unfold uploadMultipartWithProgress, uploadPresignedPostWithProgress, run_transport.
  unfold bind, emit, sleep, ret.
  destruct (has_urls p), (onUploadBegin opts); cbn in Ht; cbn -[poll_stage]; rewrite Ht;
    cbn -[poll_stage]; rewrite poll_stage_dies;
    rewrite <- ?app_assoc; reflexivity.
Qed.

Lemma uploadFile_cases bh slug opts p w :
  (matched_file opts p = None /\
   uploadFile bh slug opts p w =
   (Err (UploadThingError "NOT_FOUND" "No file found for presigned URL"
                          (not_found_cause opts p)),
    mkWorld (clock w)
      (trace w ++ [(clock w, EvConsoleError "No file found for presigned URL")]))) \/
  (exists f dur e, matched_file opts p = Some f /\ transport_call slug opts p f = (dur, Some e) /\
   uploadFile bh slug opts p w =
   (Err e,
    mkWorld (clock w + Z.of_N dur)
      (trace w ++ begin_evs opts f (clock w)
         ++ [(clock w, EvTransportStart (kind_of p) (key (base p)));
             (clock w + Z.of_N dur, EvTransportEnd (kind_of p) (key (base p)))]))) \/
  (exists f dur, matched_file opts p = Some f /\ transport_call slug opts p f = (dur, None) /\
   uploadFile bh slug opts p w =
   (Die SchemaDecodeTypeError,
    mkWorld (clock w + Z.of_N dur + 500)
      (trace w ++ begin_evs opts f (clock w)
         ++ [(clock w, EvTransportStart (kind_of p) (key (base p)));
             (clock w + Z.of_N dur, EvTransportEnd (kind_of p) (key (base p)))]))).
Proof.
  destruct (matched_file opts p) as [f|] eqn:Hf.
  - destruct (transport_call slug opts p f) as [dur [e|]] eqn:Ht.
    + right; left. exists f, dur, e. split; [reflexivity|split; [exact Ht|]].
      apply uploadFile_transport_fail; assumption.
    + right; right. exists f, dur. split; [reflexivity|split; [exact Ht|]].
      apply uploadFile_transport_ok; assumption.
  - left. split; [reflexivity|]. apply uploadFile_not_found. exact Hf.
Qed.

(** The pipeline of a descriptor sends no request at all. *)
Lemma uploadFile_no_request bh slug opts p w u :
  count_fetches u (trace (snd (uploadFile bh slug opts p w))) = count_fetches u (trace w).
Proof.
  destruct (uploadFile_cases bh slug opts p w)
    as [[_ ->] | [(f & dur & e & _ & _ & ->) | (f & dur & _ & _ & ->)]];
    cbn [snd trace]; rewrite count_fetches_app.
  - cbn. lia.
  - rewrite count_fetches_begin_transport. lia.
  - rewrite count_fetches_begin_transport. lia.
Qed.

Lemma uploadFile_not_ok bh slug opts p w r : fst (uploadFile bh slug opts p w) <> Ok r.
Proof.
  destruct (uploadFile_cases bh slug opts p w)
    as [[_ ->] | [(f & dur & e & _ & _ & ->) | (f & dur & _ & _ & ->)]];
    discriminate.
Qed.

(** ** The batch *)

Lemma uploadAll_cons bh slug opts p ps w :
  uploadAll bh slug opts (p :: ps) w =
  match uploadFile bh slug opts p w with
  | (Ok r, w1) =>
      match uploadAll bh slug opts ps w1 with
      | (Ok rs, w2) => (Ok (r :: rs), w2)
      | (Err e, w2) => (Err e, w2)
      | (Die d, w2) => (Die d, w2)
      | (OutOfFuel, w2) => (OutOfFuel, w2)
      end
  | (Err e, w1) => (Err e, w1)
  | (Die d, w1) => (Die d, w1)
  | (OutOfFuel, w1) => (OutOfFuel, w1)
  end.
Proof.
  unfold uploadAll. cbn [map Effect_all]. unfold bind, ret.
  destruct (uploadFile bh slug opts p w) as [[r|e|d|] w1]; reflexivity.
Qed.

(** Only the first pipeline of a batch runs: none succeeds. *)
Lemma uploadAll_first_only bh slug opts p ps w :
  snd (uploadAll bh slug opts (p :: ps) w) = snd (uploadFile bh slug opts p w) /\
  forall rs, fst (uploadAll bh slug opts (p :: ps) w) <> Ok rs.
Proof.
  rewrite uploadAll_cons. pose proof (uploadFile_not_ok bh slug opts p w) as Hn.
  destruct (uploadFile bh slug opts p w) as [[r|e|d|] w1]; cbn [fst] in Hn.
  - exfalso. exact (Hn r eq_refl).
  - split; [reflexivity | discriminate].
  - split; [reflexivity | discriminate].
  - split; [reflexivity | discriminate].
Qed.

Lemma uploadAll_no_request bh slug opts ps w u :
  count_fetches u (trace (snd (uploadAll bh slug opts ps w))) = count_fetches u (trace w).
Proof.
  destruct ps as [|p ps]; [reflexivity|].
  destruct (uploadAll_first_only bh slug opts p ps w) as [-> _].
  apply uploadFile_no_request.
Qed.

(** ** The upload call *)

Lemma uploadFiles_dies bh endpoint opts w :
  uploadFiles bh endpoint opts w = (Die SchemaDecodeTypeError, w).
Proof. reflexivity. Qed.

Lemma DANGEROUS__uploadFiles_eq endpoint opts w :
  DANGEROUS__uploadFiles endpoint opts w =
  (Die SchemaDecodeTypeError, mkWorld (clock w) (trace w ++ [(clock w, EvLogError)])).
Proof.
  unfold DANGEROUS__uploadFiles, tapErrorCause_logError, catchTag_UTReporterError_die.
  rewrite uploadFiles_dies. reflexivity.
Qed.

(** ** Claims *)

(** C1 (a defect of the code). Once the file of a descriptor is matched
    and its transport has succeeded, the pipeline sends no poll request:
    whatever the polling endpoint would answer, the polling URL is never
    requested and the run ends with the [TypeError] defect that
    [fetchEffJson(presigned.pollingUrl, PollingResponse, ...)] throws, not
    with a payload. *)
Theorem uploadFile_never_polls bh slug opts p w f dur :
  matched_file opts p = Some f ->
  transport_call slug opts p f = (dur, None) ->
  fst (uploadFile bh slug opts p w) = Die SchemaDecodeTypeError /\
  count_fetches (pollingUrl (base p)) (trace (snd (uploadFile bh slug opts p w)))
  = count_fetches (pollingUrl (base p)) (trace w).
Proof.
  intros Hf Ht. split.
  - rewrite (uploadFile_transport_ok bh slug opts p w f dur Hf Ht). reflexivity.
  - apply uploadFile_no_request.
Qed.


(** C5 (a defect of the code). No poll answer is ever decoded: the pipeline
    of a descriptor ends in one of three ways only. An unmatched descriptor
    fails with [NOT_FOUND]; a failing transport fails with the transport's
    error; after a successful transport the run ends with the [TypeError]
    defect of the poll stage. *)
Theorem uploadFile_outcomes bh slug opts p w :
  (matched_file opts p = None /\
   fst (uploadFile bh slug opts p w)
   = Err (UploadThingError "NOT_FOUND" "No file found for presigned URL"
                           (not_found_cause opts p))) \/
  (exists f dur e, matched_file opts p = Some f /\ transport_call slug opts p f = (dur, Some e)
     /\ fst (uploadFile bh slug opts p w) = Err e) \/
  (exists f dur, matched_file opts p = Some f /\ transport_call slug opts p f = (dur, None)
     /\ fst (uploadFile bh slug opts p w) = Die SchemaDecodeTypeError).
Proof.
  destruct (uploadFile_cases bh slug opts p w)
    as [[Hf ->] | [(f & dur & e & Hf & Ht & ->) | (f & dur & Hf & Ht & ->)]].
  - left. split; [exact Hf | reflexivity].
  - right; left. exists f, dur, e. auto.
  - right; right. exists f, dur. auto.
Qed.



(** C10. Once the file is matched, the pipeline selects the multipart
    transport exactly when the descriptor has [urls] (the [MPUResponse]
    shape), the presigned-POST transport otherwise, and the
    [onUploadBegin] callback, when given, is called with the file's name
    before the transport starts. *)
Theorem uploadFile_begin_then_transport bh slug opts p w f :
  matched_file opts p = Some f ->
  (kind_of p = Multipart <-> has_urls p = true) /\
  exists rest,
    trace (snd (uploadFile bh slug opts p w)) =
      trace w ++ begin_evs opts f (clock w)
      ++ (clock w, EvTransportStart (kind_of p) (key (base p))) :: rest.
Proof.
  intros Hf. split.
  - unfold kind_of. destruct (has_urls p); split; congruence.
  - destruct (transport_call slug opts p f) as [dur [e|]] eqn:Ht.
    + rewrite (uploadFile_transport_fail bh slug opts p w f dur e Hf Ht).
      eexists. cbn [snd trace]. reflexivity.
    + rewrite (uploadFile_transport_ok bh slug opts p w f dur Hf Ht).
      eexists. cbn [snd trace]. reflexivity.
Qed.

(** C3 (a defect of the code). The upload call never returns a list of
    results and never fails with the error of a pipeline: whatever the
    endpoint and the options, [fetchEffJson(createAPIRequestUrl(...),
    uploadThingResponseSchema, ...)] throws before the descriptor request,
    so the call ends with the [TypeError] defect, logged, in the instant it
    starts. *)
Theorem DANGEROUS__uploadFiles_always_dies endpoint opts w :
  DANGEROUS__uploadFiles endpoint opts w =
  (Die SchemaDecodeTypeError, mkWorld (clock w) (trace w ++ [(clock w, EvLogError)])).
Proof. apply DANGEROUS__uploadFiles_eq. Qed.

(** C6 (a defect of the code). The upload call never fails with a typed
    error, so never with [NOT_FOUND], whatever file names the options carry:
    it requests no descriptor and so never matches one. *)
Theorem DANGEROUS__uploadFiles_never_not_found endpoint opts w :
  (forall e, fst (DANGEROUS__uploadFiles endpoint opts w) <> Err e) /\
  (forall u, count_fetches u (trace (snd (DANGEROUS__uploadFiles endpoint opts w)))
             = count_fetches u (trace w)).
Proof.
  rewrite DANGEROUS__uploadFiles_eq. split.
  - intros e. discriminate.
  - intros u. cbn [snd trace]. rewrite count_fetches_app. cbn. lia.
Qed.

(** C7. A batch of two descriptors where the transport of one ([pX]) fails
    never yields a result and never polls. The upload call itself fails
    before any request. In the batch step, with [pX] first the batch fails
    with [pX]'s transport error and the other pipeline is never run; with
    [pX] second the first pipeline ends in the defect of its poll stage,
    before any poll; in both orders no request is sent at all. *)
Theorem uploadAll_two_transport_failure bh slug opts pX pY fX dur e w :
  matched_file opts pX = Some fX ->
  transport_call slug opts pX fX = (dur, Some e) ->
  (forall endpoint, fst (DANGEROUS__uploadFiles endpoint opts w) = Die SchemaDecodeTypeError
     /\ forall u, count_fetches u (trace (snd (DANGEROUS__uploadFiles endpoint opts w)))
                  = count_fetches u (trace w)) /\
  uploadAll bh slug opts [pX; pY] w = (Err e, snd (uploadFile bh slug opts pX w)) /\
  (forall rs, fst (uploadAll bh slug opts [pY; pX] w) <> Ok rs) /\
  (forall u, count_fetches u (trace (snd (uploadAll bh slug opts [pX; pY] w)))
             = count_fetches u (trace w)
          /\ count_fetches u (trace (snd (uploadAll bh slug opts [pY; pX] w)))
             = count_fetches u (trace w)).
Proof.
  intros Hm Ht. split; [|split; [|split]].
  - intros endpoint. rewrite DANGEROUS__uploadFiles_eq. split; [reflexivity|].
    intros u. cbn [snd trace]. rewrite count_fetches_app. cbn. lia.
  - rewrite uploadAll_cons, (uploadFile_transport_fail bh slug opts pX w fX dur e Hm Ht).
    reflexivity.
  - apply uploadAll_first_only.
  - intros u. split; apply uploadAll_no_request.
Qed.

(** ** The retry schedule *)

Lemma run_backoff_from (inputs : list (Z * UTError)) : forall n c s i now e,
  nth_error inputs i = Some (now, e) ->
  nth_error (run_backoff inputs ((n, c, true), s)) i = Some Done \/
  nth_error (run_backoff inputs ((n, c, true), s)) i
    = Some (Continue (now + 10 * 4 ^ Z.of_nat (n + i))).
Proof.
  induction inputs as [|[now' e'] rest IH]; intros n c s i now e H.
  - destruct i; discriminate.
  - cbn [run_backoff]. rewrite backoff_step. destruct i as [|i].
    + cbn in H. injection H as <- <-. cbn [nth_error].
      rewrite Nat.add_0_r.
      destruct (isRetryError e' && _)%bool; [right|left]; reflexivity.
    + cbn in H. cbn [nth_error].
      replace (n + S i)%nat with (S n + i)%nat by lia.
      apply (IH (S n) c (Some (start_of s now')) i now e H).
Qed.

(** C4. Stepped on any sequence of inputs from its initial state, the
    retry schedule of [exponentialBackoff] decides at step [i] either to
    stop or to run again [10 * 4 ^ i] ms after the step: the delays are
    10, 40, 160, 640, ... ms for as long as it continues (the third is
    160 ms), and none of them is the 1 s spacing of the
    [Schedule.spaced(Duration.seconds(1))] stage, which is never reached
    because [Schedule.exponential] never completes. *)
Theorem exponentialBackoff_delays inputs :
  (forall i now e, nth_error inputs i = Some (now, e) ->
     nth_error (run_backoff inputs (sinit backoff)) i = Some Done \/
     nth_error (run_backoff inputs (sinit backoff)) i
       = Some (Continue (now + 10 * 4 ^ Z.of_nat i))) /\
  (forall i, 10 * 4 ^ Z.of_nat i <> seconds 1) /\
  10 * 4 ^ Z.of_nat 2 = 160.
Proof.
  split; [|split].
  - intros i now e H. apply (run_backoff_from inputs 0%nat 0%nat None i now e H).
  - intros i. unfold seconds. intros Heq.
    destruct (Nat.lt_ge_cases i 4) as [Hi|Hi].
    + destruct i as [|[|[|[|i]]]]; try lia; cbn in Heq; discriminate.
    + assert (Hge : 4 ^ 4 <= 4 ^ Z.of_nat i) by (apply Z.pow_le_mono_r; lia).
      change (4 ^ 4) with 256 in Hge. lia.
  - reflexivity.
Qed.

(** ** Further properties *)

Lemma map_const_length {A B} (c : B) (l1 : list A) (l2 : list A) :
  length l1 = length l2 -> map (fun _ => c) l1 = map (fun _ => c) l2.
Proof.
  revert l2. induction l1 as [|x l1 IH]; intros [|y l2] H; try discriminate; [reflexivity|].
  cbn. f_equal. apply IH. injection H as H. exact H.
Qed.

(** The [NOT_FOUND] cause never names the given files: [files.join(",")]
    prints each [File] as ["[object File]"], so two file lists of the same
    length give the same cause. *)
Theorem not_found_cause_ignores_file_names opts1 opts2 p :
  length (files opts1) = length (files opts2) ->
  not_found_cause opts1 p = not_found_cause opts2 p.
Proof.
  intros H. unfold not_found_cause. rewrite (map_const_length "[object File]" _ _ H).
  reflexivity.
Qed.

(** [exponentialBackoff] on its own ignores its inputs: stepped on any
    inputs from its initial state, it decides at step [i] (instant [now])
    to run again [10 * 4 ^ i] ms later exactly when at most a minute has
    passed since the first step, whatever input that step is fed. *)
Theorem exponentialBackoff_ignores_input (inputs : list (Z * UTError)) i t0 e0 now e :
  nth_error inputs 0 = Some (t0, e0) ->
  nth_error inputs i = Some (now, e) ->
  nth_error (run_schedule exponentialBackoff inputs (sinit exponentialBackoff)) i
  = Some (if now - t0 <=? minutes 1 then Continue (now + 10 * 4 ^ Z.of_nat i) else Done).
Proof.
  intros H0 Hi. change (minutes 1) with 60000.
  destruct inputs as [|[t e'] rest]; [discriminate|].
  cbn in H0. injection H0 as -> ->.
  change (sinit exponentialBackoff) with (((0%nat, 0%nat, true), None) : sst exponentialBackoff).
  cbn [run_schedule]. rewrite exponentialBackoff_step. cbn [start_of].
  destruct i as [|i].
  - cbn in Hi. injection Hi as <- <-. rewrite Z.sub_diag. reflexivity.
  - cbn in Hi. cbn [nth_error].
    apply (run_exponentialBackoff_started rest 1%nat 0%nat t0 i now e Hi).
Qed.



End Client.

(** ** Instances *)

(** The retry schedule, fed a [RetryError] every second: the delays keep
    growing by a factor of 4, with no 1 s spacing. *)
Lemma exponentialBackoff_never_spaced_run :
  run_backoff (map (fun i => (1000 * Z.of_nat i, RetryError)) (seq 0 9)) (sinit backoff)
  = [Continue 10; Continue 1040; Continue 2160; Continue 3640; Continue 6560;
     Continue 15240; Continue 46960; Continue 170840; Continue 663360].
Proof. vm_compute. reflexivity. Qed.

(** C1 on a polling endpoint that would answer "done" after three
    "still waiting": the run dies and [a.txt]'s polling URL is never
    requested. *)
Lemma uploadFile_never_polls_witness :
  matched_file (exOpts [exFa]) exA = Some exFa /\
  transport_call (exTransport "none") "my-app" (exOpts [exFa]) exA exFa = (100%N, None) /\
  fst (uploadFile (exNet 3 (done_body (JNum 7))) (exTransport "none") "" []
         "my-app" (exOpts [exFa]) exA exW0) = Die SchemaDecodeTypeError /\
  count_fetches "https://api.example/poll/kA"
    (trace (snd (uploadFile (exNet 3 (done_body (JNum 7))) (exTransport "none") "" []
                   "my-app" (exOpts [exFa]) exA exW0))) = 0%nat.
Proof.
  split; [reflexivity|split; [reflexivity|]].
  apply (uploadFile_never_polls (exNet 3 (done_body (JNum 7))) (exTransport "none") "" []
           "my-app" (exOpts [exFa]) exA exW0 exFa 100%N); reflexivity.
Defined.


(** C7 with [a.txt]'s transport failing, in both orders. *)
Lemma uploadAll_two_transport_failure_witness :
  matched_file (exOpts [exFa; exFb]) exA = Some exFa /\
  transport_call (exTransport "kA") "my-app" (exOpts [exFa; exFb]) exA exFa
    = (100%N, Some (TransportError "403")) /\
  (forall endpoint,
     fst (DANGEROUS__uploadFiles exNetWaiting (exTransport "kA") exApiUrl exSchemaEmpty ""
            endpoint (exOpts [exFa; exFb]) exW0) = Die SchemaDecodeTypeError
     /\ forall u, count_fetches u
                    (trace (snd (DANGEROUS__uploadFiles exNetWaiting (exTransport "kA") exApiUrl
                                   exSchemaEmpty "" endpoint (exOpts [exFa; exFb]) exW0)))
                  = count_fetches u (trace exW0)) /\
  uploadAll exNetWaiting (exTransport "kA") "" [] "my-app" (exOpts [exFa; exFb]) [exA; exB] exW0
    = (Err (TransportError "403"),
       snd (uploadFile exNetWaiting (exTransport "kA") "" [] "my-app" (exOpts [exFa; exFb])
              exA exW0)) /\
  (forall rs, fst (uploadAll exNetWaiting (exTransport "kA") "" [] "my-app"
                     (exOpts [exFa; exFb]) [exB; exA] exW0) <> Ok rs) /\
  (forall u,
     count_fetches u (trace (snd (uploadAll exNetWaiting (exTransport "kA") "" [] "my-app"
                                    (exOpts [exFa; exFb]) [exA; exB] exW0)))
     = count_fetches u (trace exW0)
  /\ count_fetches u (trace (snd (uploadAll exNetWaiting (exTransport "kA") "" [] "my-app"
                                    (exOpts [exFa; exFb]) [exB; exA] exW0)))
     = count_fetches u (trace exW0)).
Proof.
  split; [reflexivity|split; [reflexivity|]].
  apply (uploadAll_two_transport_failure exNetWaiting (exTransport "kA") exApiUrl exSchemaEmpty
           "" [] "my-app" (exOpts [exFa; exFb]) exA exB exFa 100%N (TransportError "403") exW0);
    reflexivity.
Defined.


(** C10 on a multipart descriptor. *)
Lemma uploadFile_begin_then_transport_witness :
  matched_file (exOpts [exFm]) exM = Some exFm /\
  (kind_of exM = Multipart <-> has_urls exM = true) /\
  exists rest,
    trace (snd (uploadFile exNetWaiting (exTransport "none") "" [] "my-app"
                  (exOpts [exFm]) exM exW0)) =
      [] ++ [(0, EvBegin "m.bin")] ++ (0, EvTransportStart Multipart "kM") :: rest.
Proof.
  split; [reflexivity|].
  apply (uploadFile_begin_then_transport exNetWaiting (exTransport "none") "" [] "my-app"
           (exOpts [exFm]) exM exW0 exFm).
  reflexivity.
Defined.

Lemma not_found_cause_ignores_file_names_witness :
  not_found_cause (exOpts [exFa]) exB = not_found_cause (exOpts [mkFile "z.txt" 1]) exB.
Proof.
  apply (not_found_cause_ignores_file_names (exOpts [exFa]) (exOpts [mkFile "z.txt" 1]) exB).
  reflexivity.
Defined.

(** [exponentialBackoff] continues on a [FetchError] (which [Effect.retry]'s
    [while] would refuse): its decision only depends on time. *)
Lemma exponentialBackoff_ignores_input_witness :
  nth_error [(0, FetchError "https://api.example/poll/kA"); (50, RetryError)] 0
    = Some (0, FetchError "https://api.example/poll/kA") /\
  nth_error (run_schedule exponentialBackoff
               [(0, FetchError "https://api.example/poll/kA"); (50, RetryError)]
               (sinit exponentialBackoff)) 0 = Some (Continue 10).
Proof.
  split; [reflexivity|].
  rewrite (exponentialBackoff_ignores_input
             [(0, FetchError "https://api.example/poll/kA"); (50, RetryError)] 0
             0 (FetchError "https://api.example/poll/kA") 0
             (FetchError "https://api.example/poll/kA") eq_refl eq_refl).
  reflexivity.
Defined.
